(** * The data access service of the customer-service system

    A shallow embedding of [mcp_server.py] (the operation handlers of
    [DataAccessService], its dispatcher [execute_operation] and the
    [POST /call] handler) and of the tool adapter of [service_tools.py],
    followed by the properties of the specification that concern them.

    Modelling conventions.
    - The SQLite file is a [store]: each table is a finite map from its
      INTEGER PRIMARY KEY to the remaining columns, INTEGER columns hold
      [Z] and TEXT columns hold [string]. The 64-bit limit of SQLite
      integers is not modelled.
    - [datetime.datetime.now(datetime.UTC).isoformat()] is the argument
      [now] of every operation: the reading of the clock during the call.
    - JSON documents and Python objects built from them are [value]s; a
      Python [dict] with string keys is a [gmap string value].
    - A Python function that can raise returns an [outcome].
    - What CPython, sqlite3, json and httpx decide and the repository does
      not (the wording of built-in error messages, the treatment of
      arguments whose dynamic type differs from the annotation of the
      handler, JSON decoding and encoding) is a field of [runtime]. *)

From Stdlib Require Import ZArith String Ascii.
From stdpp Require Import gmap strings pretty sorting list fin_maps.

Set Warnings "-register-all".
Local Open Scope string_scope.
Local Open Scope Z_scope.

(** ** Python values *)

Inductive value :=
  | VNone
  | VBool (b : bool)
  | VInt (z : Z)
  | VFloat (repr : string)   (* a float, carried by its [repr] *)
  | VStr (s : string)
  | VList (l : list value)
  | VDict (d : gmap string value).

(** [str(v)] for the values that can be hashed; lists and dicts cannot. *)
Definition scalar_text (v : value) : option string :=
  match v with
  | VNone => Some "None"
  | VBool true => Some "True"
  | VBool false => Some "False"
  | VInt z => Some (pretty z)
  | VFloat repr => Some repr
  | VStr s => Some s
  | VList _ | VDict _ => None
  end.

Definition as_text (v : value) : option string :=
  match v with VStr s => Some s | _ => None end.

(** [str.lower] on the bytes of a string: only the ASCII capitals change.
    A string with a character outside ASCII does not lower to low, medium
    or high in Python either, so the priority check of
    [_register_new_ticket] decides as Python does. *)
Definition lower_ascii (c : ascii) : ascii :=
  let n := N_of_ascii c in
  if ((65 <=? n) && (n <=? 90))%N then ascii_of_N (n + 32) else c.

Fixpoint lower (s : string) : string :=
  match s with
  | EmptyString => EmptyString
  | String c rest => String (lower_ascii c) (lower rest)
  end.

(** ** The record store *)

Record account := {
  full_name : string;
  contact_email : string;
  contact_phone : string;
  account_status : string;
  creation_timestamp : string;
  last_modified_timestamp : string
}.

Record ticket := {
  account_id : Z;
  description : string;
  status : string;
  priority_level : string;
  submission_timestamp : string
}.

(** [customer_accounts] is keyed by [identifier] and [support_tickets] by
    [ticket_id]; [ticket_sequence] is the AUTOINCREMENT counter that SQLite
    keeps for [support_tickets]. *)
Record store := {
  customer_accounts : gmap Z account;
  support_tickets : gmap Z ticket;
  ticket_sequence : Z
}.

Definition with_accounts (accounts : gmap Z account) (st : store) : store :=
  {| customer_accounts := accounts;
     support_tickets := support_tickets st;
     ticket_sequence := ticket_sequence st |}.

(** A table scan: the rows in increasing order of their key. *)
Definition by_rowid {A} (r1 r2 : Z * A) : Prop := r1.1 ≤ r2.1.

Global Instance by_rowid_dec {A} : RelDecision (@by_rowid A).
Proof. intros r1 r2. unfold by_rowid. apply _. Defined.

Definition scan {A} (table : gmap Z A) : list (Z * A) :=
  merge_sort by_rowid (map_to_list table).

Definition largest_rowid {A} (table : gmap Z A) : Z :=
  foldr Z.max 0 (map_to_list table).*1.

(** [initialize_database_schema]: both tables dropped, created again and
    seeded; the seven tickets receive the identifiers 1 to 7. *)
Definition seed_account (name email phone state current_utc : string) : account :=
  {| full_name := name; contact_email := email; contact_phone := phone;
     account_status := state; creation_timestamp := current_utc;
     last_modified_timestamp := current_utc |}.

Definition seed_ticket (owner : Z) (text state priority current_utc : string) : ticket :=
  {| account_id := owner; description := text; status := state;
     priority_level := priority; submission_timestamp := current_utc |}.

Definition initialize_database_schema (current_utc : string) : store :=
  {| customer_accounts := list_to_map [
       (1, seed_account "Alice Premium" "alice@example.com" "111-111-1111" "active" current_utc);
       (2, seed_account "Bob Standard" "bob@example.com" "222-222-2222" "active" current_utc);
       (3, seed_account "Charlie Disabled" "charlie@example.com" "333-333-3333" "disabled" current_utc);
       (4, seed_account "Diana Premium" "diana@example.com" "444-444-4444" "active" current_utc);
       (5, seed_account "Eve Standard" "eve@example.com" "555-555-5555" "active" current_utc);
       (12345, seed_account "Priya Patel (Premium)" "priya@example.com" "555-0999" "active" current_utc) ];
     support_tickets := list_to_map [
       (1, seed_ticket 1 "Billing duplicate charge" "open" "high" current_utc);
       (2, seed_ticket 1 "Unable to login" "in_progress" "medium" current_utc);
       (3, seed_ticket 2 "Request upgrade" "open" "low" current_utc);
       (4, seed_ticket 4 "Critical outage" "open" "high" current_utc);
       (5, seed_ticket 5 "Password reset" "open" "low" current_utc);
       (6, seed_ticket 12345 "Account upgrade assistance" "open" "medium" current_utc);
       (7, seed_ticket 12345 "High priority refund review" "open" "high" current_utc) ];
     ticket_sequence := 7 |}.

(** ** Envelopes, exceptions and the runtime *)

Inductive payload :=
  | account_record (identifier : Z) (row : account)
  | ticket_record (ticket_id : Z) (row : ticket)
  | account_records (rows : list (Z * account))
  | ticket_records (rows : list (Z * ticket)).

(** The dict every operation returns; an absent key is [None]. *)
Record envelope := {
  success : bool;
  data : option payload;
  error : option string;
  total_count : option nat
}.

Definition found (p : payload) : envelope :=
  {| success := true; data := Some p; error := None; total_count := None |}.

Definition listed (p : payload) (n : nat) : envelope :=
  {| success := true; data := Some p; error := None; total_count := Some n |}.

Definition failed (message : string) : envelope :=
  {| success := false; data := None; error := Some message; total_count := None |}.

(** An exception is seen through [type(e).__name__] and [str(e)] only.
    Every exception of the model derives from [Exception]. *)
Record exception := { exc_type : string; exc_str : string }.

Inductive outcome (A : Type) :=
  | Returned (a : A)
  | Raised (e : exception).
Arguments Returned {A} a.
Arguments Raised {A} e.

(** The faults that the interpreter itself reports. *)
Inductive fault :=
  | keywords_rejected (callee : string) (kwargs : gmap string value)
  | multiple_values (callee : string) (kwargs : gmap string value)
  | not_a_mapping (v : value)
  | unhashable (v : value)
  | no_attribute (v : value) (attribute : string).

Record runtime := {
  (* [str(e)] of the TypeError or AttributeError raised for a fault *)
  fault_text : fault → string;
  (* a handler called with an argument whose type is not the annotated one *)
  dynamic_typing :
    string → gmap string value → string → store → outcome envelope * store;
  (* [json.loads]; [None] when it raises [JSONDecodeError] *)
  json_loads : string → option value;
  (* [json.dumps(data, indent=2)] *)
  json_dumps : payload → string;
  (* [str(e)] of what httpx raises: endpoint unreachable, error status *)
  transport_text : option Z → string
}.

Definition type_error (rt : runtime) (f : fault) : exception :=
  {| exc_type := "TypeError"; exc_str := fault_text rt f |}.

Definition attribute_error (rt : runtime) (f : fault) : exception :=
  {| exc_type := "AttributeError"; exc_str := fault_text rt f |}.

(** ** DataAccessService *)

Section DataAccessService.

Variable rt : runtime.

(** *** The handlers, on arguments of the annotated types *)

Definition _fetch_customer_record (customer_id : Z) (st : store) : envelope :=
  match customer_accounts st !! customer_id with
  | Some row => found (account_record customer_id row)
  | None => failed ("Account with ID " +:+ pretty customer_id +:+ " not found")
  end.

(** [LIMIT ?]: a negative bound is no bound. *)
Definition sql_limit {A} (limit : Z) (rows : list A) : list A :=
  if limit <? 0 then rows else take (Z.to_nat limit) rows.

Definition _search_customer_records
    (status : option string) (limit : Z) (st : store) : envelope :=
  let selected :=
    match status with
    | Some wanted =>
        if bool_decide (wanted = "") then scan (customer_accounts st)
        else filter (λ r, account_status r.2 = wanted) (scan (customer_accounts st))
    | None => scan (customer_accounts st)
    end in
  let rows := sql_limit limit selected in
  listed (account_records rows) (length rows).

Definition valid_fields : list string :=
  ["full_name"; "contact_email"; "contact_phone"; "account_status"].

(** [UPDATE customer_accounts SET k=?, ..., last_modified_timestamp=?] on
    one row: a column named in [updates] takes the value given for it. *)
Definition assign (updates : gmap string string) (now : string) (row : account) : account :=
  {| full_name := default (full_name row) (updates !! "full_name");
     contact_email := default (contact_email row) (updates !! "contact_email");
     contact_phone := default (contact_phone row) (updates !! "contact_phone");
     account_status := default (account_status row) (updates !! "account_status");
     creation_timestamp := creation_timestamp row;
     last_modified_timestamp := now |}.

(** The column of [customer_accounts] that an updatable name denotes. *)
Definition column (name : string) (row : account) : option string :=
  if bool_decide (name = "full_name") then Some (full_name row)
  else if bool_decide (name = "contact_email") then Some (contact_email row)
  else if bool_decide (name = "contact_phone") then Some (contact_phone row)
  else if bool_decide (name = "account_status") then Some (account_status row)
  else None.

Definition update_arguments (customer_id : Z) (data : gmap string value)
    : gmap string value :=
  {[ "customer_id" := VInt customer_id; "data" := VDict data ]}.

(** The values bound to the TEXT columns are strings; a [data] that gives
    another value to a whitelisted field is left to the runtime. *)
Definition _modify_customer_details
    (customer_id : Z) (data : gmap string value) (now : string) (st : store)
    : outcome envelope * store :=
  let updates := filter (λ kv, kv.1 ∈ valid_fields) data in
  if bool_decide (size updates = 0%nat) then
    (Returned (failed "No valid fields provided for update."), st)
  else if bool_decide (map_Forall (λ _ v, is_Some (as_text v)) updates) then
    let st' :=
      with_accounts
        (alter (assign (omap as_text updates) now) customer_id (customer_accounts st)) st in
    match customer_accounts st' !! customer_id with
    | Some row => (Returned (found (account_record customer_id row)), st')
    | None =>
        (Returned (failed ("Account " +:+ pretty customer_id
                           +:+ " not found or update failed.")), st')
    end
  else dynamic_typing rt "update_customer" (update_arguments customer_id data) now st.

(** AUTOINCREMENT: the new [ticket_id] is one more than the largest that
    the table holds or ever held. *)
Definition _register_new_ticket
    (customer_id : Z) (issue priority : string) (now : string) (st : store)
    : outcome envelope * store :=
  let normalized_priority := lower priority in
  if bool_decide (normalized_priority ∈ ["low"; "medium"; "high"]) then
    let new_ticket_id :=
      Z.max (ticket_sequence st) (largest_rowid (support_tickets st)) + 1 in
    let inserted :=
      {| account_id := customer_id; description := issue; status := "open";
         priority_level := normalized_priority; submission_timestamp := now |} in
    let st' :=
      {| customer_accounts := customer_accounts st;
         support_tickets := <[new_ticket_id := inserted]> (support_tickets st);
         ticket_sequence := new_ticket_id |} in
    match support_tickets st' !! new_ticket_id with
    | Some row => (Returned (found (ticket_record new_ticket_id row)), st')
    | None => (Returned (failed "Database error: Failed to log new ticket."), st')
    end
  else (Returned (failed "Priority must be 'low', 'medium', or 'high'."), st).

(** [ORDER BY submission_timestamp DESC]: TEXT is compared bytewise. *)
Definition newest_first (r1 r2 : Z * ticket) : Prop :=
  String.le (submission_timestamp r2.2) (submission_timestamp r1.2).

Global Instance newest_first_dec : RelDecision newest_first.
Proof. intros r1 r2. unfold newest_first. apply _. Defined.

Definition _retrieve_ticket_history (customer_id : Z) (st : store) : envelope :=
  let rows :=
    merge_sort newest_first
      (filter (λ r, account_id r.2 = customer_id) (scan (support_tickets st))) in
  listed (ticket_records rows) (length rows).

(** *** The dispatch table

    An entry records the keyword parameters of the bound method, which the
    call of [self.operations[operation_name]] with [kwargs] checks before the body
    runs, and the body on the keyword arguments it accepted. *)

Definition handler : Type :=
  gmap string value → string → store → outcome envelope * store.

Record operation := {
  qualname : string;
  required : list string;
  optional : list string;
  body : handler
}.

Definition accepts (op : operation) (kwargs : gmap string value) : bool :=
  bool_decide (dom kwargs ⊆ list_to_set (required op ++ optional op))
  && bool_decide (list_to_set (required op) ⊆ dom kwargs).

Definition call (op : operation) : handler := λ kwargs now st,
  if accepts op kwargs then body op kwargs now st
  else (Raised (type_error rt (keywords_rejected (qualname op) kwargs)), st).

Definition get_customer_entry : operation :=
  {| qualname := "DataAccessService._fetch_customer_record";
     required := ["customer_id"]; optional := [];
     body := λ kwargs now st,
       match kwargs !! "customer_id" with
       | Some (VInt customer_id) =>
           (Returned (_fetch_customer_record customer_id st), st)
       | _ => dynamic_typing rt "get_customer" kwargs now st
       end |}.

Definition list_customers_entry : operation :=
  {| qualname := "DataAccessService._search_customer_records";
     required := []; optional := ["status"; "limit"];
     body := λ kwargs now st,
       match default VNone (kwargs !! "status"), default (VInt 100) (kwargs !! "limit") with
       | VNone, VInt limit =>
           (Returned (_search_customer_records None limit st), st)
       | VStr status, VInt limit =>
           (Returned (_search_customer_records (Some status) limit st), st)
       | _, _ => dynamic_typing rt "list_customers" kwargs now st
       end |}.

Definition update_customer_entry : operation :=
  {| qualname := "DataAccessService._modify_customer_details";
     required := ["customer_id"; "data"]; optional := [];
     body := λ kwargs now st,
       match kwargs !! "customer_id", kwargs !! "data" with
       | Some (VInt customer_id), Some (VDict data) =>
           _modify_customer_details customer_id data now st
       | _, _ => dynamic_typing rt "update_customer" kwargs now st
       end |}.

Definition create_ticket_entry : operation :=
  {| qualname := "DataAccessService._register_new_ticket";
     required := ["customer_id"; "issue"]; optional := ["priority"];
     body := λ kwargs now st,
       match kwargs !! "customer_id", kwargs !! "issue",
             default (VStr "medium") (kwargs !! "priority") with
       | Some (VInt customer_id), Some (VStr issue), VStr priority =>
           _register_new_ticket customer_id issue priority now st
       | _, _, _ => dynamic_typing rt "create_ticket" kwargs now st
       end |}.

Definition get_customer_history_entry : operation :=
  {| qualname := "DataAccessService._retrieve_ticket_history";
     required := ["customer_id"]; optional := [];
     body := λ kwargs now st,
       match kwargs !! "customer_id" with
       | Some (VInt customer_id) =>
           (Returned (_retrieve_ticket_history customer_id st), st)
       | _ => dynamic_typing rt "get_customer_history" kwargs now st
       end |}.

Definition operations : gmap string operation :=
  list_to_map [
    ("get_customer", get_customer_entry);
    ("list_customers", list_customers_entry);
    ("update_customer", update_customer_entry);
    ("create_ticket", create_ticket_entry);
    ("get_customer_history", get_customer_history_entry) ].

Definition recognized : list string :=
  ["get_customer"; "list_customers"; "update_customer"; "create_ticket";
   "get_customer_history"].

Definition registered (operation_name : value) : option operation :=
  match operation_name with
  | VStr name => operations !! name
  | _ => None
  end.

(** [operation_name not in self.operations] hashes the name, outside the
    [try]; the handler is called inside it. [kwargs] is the dict that
    Python collects for the last parameter of the signature; how the
    mapping of a caller is bound to that signature is part of the call, in
    [call_operation_handler]. *)
Definition execute_operation (operation_name : value) : handler := λ kwargs now st,
  match scalar_text operation_name with
  | None => (Raised (type_error rt (unhashable operation_name)), st)
  | Some shown =>
      match registered operation_name with
      | None => (Returned (failed ("Unknown database operation: " +:+ shown)), st)
      | Some op =>
          match call op kwargs now st with
          | (Returned result, st') => (Returned result, st')
          | (Raised e, st') =>
              (Returned (failed ("Operation execution failed: " +:+ exc_type e
                                 +:+ " - " +:+ exc_str e)), st')
          end
      end
  end.

(** The operations as a caller names them. *)
Definition get_customer (customer_id : Z) (now : string) (st : store) :=
  execute_operation (VStr "get_customer") {[ "customer_id" := VInt customer_id ]} now st.

Definition update_customer (customer_id : Z) (data : gmap string value)
    (now : string) (st : store) :=
  execute_operation (VStr "update_customer") (update_arguments customer_id data) now st.

Definition create_ticket (customer_id : Z) (issue priority : string)
    (now : string) (st : store) :=
  execute_operation (VStr "create_ticket")
    {[ "customer_id" := VInt customer_id; "issue" := VStr issue;
       "priority" := VStr priority ]} now st.

Definition get_customer_history (customer_id : Z) (now : string) (st : store) :=
  execute_operation (VStr "get_customer_history")
    {[ "customer_id" := VInt customer_id ]} now st.

(** *** POST /call *)

Record response := { status_code : Z; content : envelope }.

Definition replied (code : Z) (result : envelope) : response :=
  {| status_code := code; content := result |}.

Definition bad_request (e : exception) : response :=
  {| status_code := 400;
     content := failed ("Invalid request format: " +:+ exc_str e) |}.

(** The keyword arguments [**op_params] are bound to the signature
    [execute_operation(self, operation_name, **kwargs)]: a key that names
    one of its two positional parameters is refused by the call itself. *)
Definition names_a_parameter (op_params : gmap string value) : bool :=
  bool_decide ("self" ∈ dom op_params ∨ "operation_name" ∈ dom op_params).

(** [request] is what [await request.json()] produces. *)
Definition call_operation_handler
    (request : outcome value) (now : string) (st : store) : response * store :=
  match request with
  | Raised e => (bad_request e, st)
  | Returned (VDict request_body) =>
      let op_name := default VNone (request_body !! "tool") in
      match default (VDict ∅) (request_body !! "params") with
      | VDict op_params =>
          if names_a_parameter op_params then
            (bad_request
               (type_error rt
                  (multiple_values "DataAccessService.execute_operation" op_params)), st)
          else
            match execute_operation op_name op_params now st with
            | (Returned result, st') => (replied 200 result, st')
            | (Raised e, st') => (bad_request e, st')
            end
      | other => (bad_request (type_error rt (not_a_mapping other)), st)
      end
  | Returned other => (bad_request (attribute_error rt (no_attribute other "get")), st)
  end.

(** The body [{tool: ..., params: ...}] once decoded. *)
Definition call_body (tool : string) (params : gmap string value) : outcome value :=
  Returned (VDict {[ "tool" := VStr tool; "params" := VDict params ]}).

(** *** The tool adapter of service_tools.py *)

Record world := {
  service : store;
  endpoint_up : bool;
  posted : list (string * gmap string value)
}.

Definition render (operation_result : envelope) : string :=
  if success operation_result then
    match data operation_result with
    | Some returned_data => json_dumps rt returned_data
    | None => "None"
    end
  else "Operation Error: " +:+ default "Unknown service error" (error operation_result).

Definition _execute_mcp_operation
    (operation_name : string) (parameters : gmap string value)
    (now : string) (w : world) : string * world :=
  let sent := (posted w ++ [(operation_name, parameters)])%list in
  if endpoint_up w then
    let '(reply, st') :=
      call_operation_handler (call_body operation_name parameters) now (service w) in
    let w' := {| service := st'; endpoint_up := true; posted := sent |} in
    if bool_decide (status_code reply = 200) then (render (content reply), w')
    else ("Service Execution Failure: "
          +:+ transport_text rt (Some (status_code reply)), w')
  else
    ("Service Execution Failure: " +:+ transport_text rt None,
     {| service := service w; endpoint_up := false; posted := sent |}).

Definition fetch_customer_data (customer_id : Z) :=
  _execute_mcp_operation "get_customer" {[ "customer_id" := VInt customer_id ]}.

Definition search_customer_accounts
    (account_status : option string) (result_limit : Z) :=
  let parameters : gmap string value := {[ "limit" := VInt result_limit ]} in
  _execute_mcp_operation "list_customers"
    match account_status with
    | Some wanted =>
        if bool_decide (wanted = "") then parameters
        else <["status" := VStr wanted]> parameters
    | None => parameters
    end.

Definition modify_customer_record
    (customer_id : Z) (update_payload : string) (now : string) (w : world)
    : string * world :=
  match json_loads rt update_payload with
  | None =>
      ("Parsing Error: The provided data for update must be a valid JSON string.", w)
  | Some payload_dict =>
      _execute_mcp_operation "update_customer"
        {[ "customer_id" := VInt customer_id; "data" := payload_dict ]} now w
  end.

Definition register_support_issue
    (customer_id : Z) (query_description urgency_level : string) :=
  _execute_mcp_operation "create_ticket"
    {[ "customer_id" := VInt customer_id; "issue" := VStr query_description;
       "priority" := VStr urgency_level ]}.

Definition retrieve_customer_history (customer_id : Z) :=
  _execute_mcp_operation "get_customer_history" {[ "customer_id" := VInt customer_id ]}.

End DataAccessService.

Arguments call_body tool params : simpl never.
Arguments names_a_parameter op_params : simpl never.

(** ** Calls that leave optional arguments out *)

Definition list_arguments (status : option string) (limit : option Z)
    : gmap string value :=
  let with_limit : gmap string value :=
    match limit with
    | Some bound => {[ "limit" := VInt bound ]}
    | None => ∅
    end in
  match status with
  | Some wanted => <["status" := VStr wanted]> with_limit
  | None => with_limit
  end.

Definition list_customers (rt : runtime) (status : option string) (limit : option Z)
    (now : string) (st : store) :=
  execute_operation rt (VStr "list_customers") (list_arguments status limit) now st.

Definition create_ticket_default (rt : runtime) (customer_id : Z) (issue : string)
    (now : string) (st : store) :=
  execute_operation rt (VStr "create_ticket")
    {[ "customer_id" := VInt customer_id; "issue" := VStr issue ]} now st.

(** The identifier that the next INSERT into [support_tickets] receives. *)
Definition next_ticket_id (st : store) : Z :=
  Z.max (ticket_sequence st) (largest_rowid (support_tickets st)) + 1.

(** ** GET /tools *)

(** [list_available_tools_handler]: the catalogue sent back, with status
    200, under the key [available_operations]. *)
Definition tool_list : list value := [
  VDict {[ "name" := VStr "get_customer";
           "description" := VStr "Retrieve customer account by ID.";
           "parameters" := VDict {[ "customer_id" := VStr "integer" ]} ]};
  VDict {[ "name" := VStr "list_customers";
           "description" := VStr "Search accounts, optionally filtered by status.";
           "parameters" := VDict {[ "status" := VStr "string (optional)";
                                    "limit" := VStr "integer (optional)" ]} ]};
  VDict {[ "name" := VStr "update_customer";
           "description" := VStr "Modify customer record details.";
           "parameters" := VDict {[ "customer_id" := VStr "integer";
                                    "data" := VStr "JSON object of fields to update" ]} ]};
  VDict {[ "name" := VStr "create_ticket";
           "description" := VStr "Log a new support ticket.";
           "parameters" := VDict {[ "customer_id" := VStr "integer";
                                    "issue" := VStr "string";
                                    "priority" := VStr "string (low/medium/high)" ]} ]};
  VDict {[ "name" := VStr "get_customer_history";
           "description" := VStr "Get all historical tickets for an account.";
           "parameters" := VDict {[ "customer_id" := VStr "integer" ]} ]} ].

Definition list_available_tools_handler : value :=
  VDict {[ "available_operations" := VList tool_list ]}.

(** ** The tools of the agents, called one after the other *)

(** A call of one of the five functions of [generate_agent_tools]. *)
Inductive tool_call :=
  | fetch_customer_data_call (customer_id : Z)
  | search_customer_accounts_call (account_status : option string) (result_limit : Z)
  | modify_customer_record_call (customer_id : Z) (update_payload : string)
  | register_support_issue_call
      (customer_id : Z) (query_description urgency_level : string)
  | retrieve_customer_history_call (customer_id : Z).

(** The whitelisted fields of [data] carry strings. *)
Definition text_fields (data : gmap string value) : Prop :=
  ∀ name v, name ∈ valid_fields → data !! name = Some v → is_Some (as_text v).

(** What a sequence of calls keeps of the store it started from: the
    identifiers of the accounts and their creation stamps, every ticket,
    and a ticket counter that does not go back. *)
Definition evolves (st0 st : store) : Prop :=
  dom (customer_accounts st) = dom (customer_accounts st0) ∧
  (∀ identifier row0 row,
     customer_accounts st0 !! identifier = Some row0 →
     customer_accounts st !! identifier = Some row →
     creation_timestamp row = creation_timestamp row0) ∧
  support_tickets st0 ⊆ support_tickets st ∧
  ticket_sequence st0 ≤ ticket_sequence st.

(** The tickets are numbered from 1 to the counter without a gap, and
    each has one of the three priorities. *)
Definition numbered (st : store) : Prop :=
  (∀ ticket_id, is_Some (support_tickets st !! ticket_id) ↔
                1 ≤ ticket_id ≤ ticket_sequence st) ∧
  (∀ ticket_id row, support_tickets st !! ticket_id = Some row →
                    priority_level row ∈ ["low"; "medium"; "high"]).

Section AgentTools.

Variable rt : runtime.

Definition invoke (c : tool_call) : string → world → string * world :=
  match c with
  | fetch_customer_data_call customer_id => fetch_customer_data rt customer_id
  | search_customer_accounts_call account_status result_limit =>
      search_customer_accounts rt account_status result_limit
  | modify_customer_record_call customer_id update_payload =>
      modify_customer_record rt customer_id update_payload
  | register_support_issue_call customer_id query_description urgency_level =>
      register_support_issue rt customer_id query_description urgency_level
  | retrieve_customer_history_call customer_id =>
      retrieve_customer_history rt customer_id
  end.

(** Each call comes with the reading of the clock at the service. *)
Fixpoint session (calls : list (tool_call * string)) (w : world) : list string * world :=
  match calls with
  | [] => ([], w)
  | (c, now) :: rest =>
      let '(answer, w') := invoke c now w in
      let '(answers, w'') := session rest w' in
      (answer :: answers, w'')
  end.

(** The payload of an update, when it is JSON, is an object that gives
    strings to the whitelisted fields. *)
Definition typed_call (c : tool_call) : Prop :=
  match c with
  | modify_customer_record_call _ update_payload =>
      match json_loads rt update_payload with
      | Some (VDict data) => text_fields data
      | Some _ => False
      | None => True
      end
  | _ => True
  end.

End AgentTools.

(** ** A runtime and a store for the examples

    The messages are shortened, a handler given an argument of another type
    than the annotated one raises, and the decoder knows the documents
    [null], [true], [false], [[]] and [{}] only. *)
Definition sample_runtime : runtime :=
  {| fault_text := λ f,
       match f with
       | keywords_rejected callee _ => callee +:+ "() got unexpected or missing arguments"
       | multiple_values callee _ => callee +:+ "() got multiple values for an argument"
       | not_a_mapping _ => "argument after ** must be a mapping"
       | unhashable _ => "unhashable type"
       | no_attribute _ attribute => "object has no attribute '" +:+ attribute +:+ "'"
       end;
     dynamic_typing := λ _ _ _ st,
       (Raised {| exc_type := "TypeError"; exc_str := "unsupported argument" |}, st);
     json_loads := λ document,
       if bool_decide (document = "null") then Some VNone
       else if bool_decide (document = "true") then Some (VBool true)
       else if bool_decide (document = "false") then Some (VBool false)
       else if bool_decide (document = "[]") then Some (VList [])
       else if bool_decide (document = "{}") then Some (VDict ∅)
       else None;
     json_dumps := λ p,
       match p with
       | account_record identifier _ => "account " +:+ pretty identifier
       | ticket_record ticket_id _ => "ticket " +:+ pretty ticket_id
       | account_records rows => pretty (length rows) +:+ " accounts"
       | ticket_records rows => pretty (length rows) +:+ " tickets"
       end;
     transport_text := λ code,
       match code with
       | Some n => "status " +:+ pretty n
       | None => "connection refused"
       end |}.

Definition seeding_time : string := "2025-11-30T09:00:00.000000+00:00".
Definition later_time : string := "2025-11-30T09:05:00.000000+00:00".

Definition seeded : store := initialize_database_schema seeding_time.

(** * Properties *)

(** ** Tables *)




Lemma foldr_max_ge (keys : list Z) (k : Z) : k ∈ keys → k ≤ foldr Z.max 0 keys.
Proof.
  induction keys as [|k' keys IH]; intros Hk.
  - by apply elem_of_nil in Hk.
  - apply elem_of_cons in Hk as [->|Hk]; simpl; [lia|].
    specialize (IH Hk). lia.
Qed.

Lemma largest_rowid_ge {A} (table : gmap Z A) (k : Z) (x : A) :
  table !! k = Some x → k ≤ largest_rowid table.
Proof.
  intros Hk. apply foldr_max_ge, list_elem_of_fmap.
  exists (k, x). split; [done|]. by apply elem_of_map_to_list.
Qed.

Lemma beyond_largest_rowid {A} (table : gmap Z A) (k : Z) :
  largest_rowid table < k → table !! k = None.
Proof.
  intros Hk. destruct (table !! k) as [x|] eqn:Hx; [|done].
  apply largest_rowid_ge in Hx. lia.
Qed.

(** ** The dispatch table *)

Section Dispatch.

Variable rt : runtime.

Lemma operations_names : (map_to_list (operations rt)).*1 ≡ₚ recognized.
Proof.
  unfold operations. rewrite map_to_list_to_map; [done|].
  cbn. compute_done.
Qed.

Lemma registered_recognized (name : string) :
  name ∈ recognized ↔ is_Some (operations rt !! name).
Proof.
  rewrite <- operations_names, list_elem_of_fmap. split.
  - intros [[k op] [-> Hin]]. apply elem_of_map_to_list in Hin. eauto.
  - intros [op Hop]. exists (name, op). split; [done|].
    by apply elem_of_map_to_list.
Qed.

Lemma unregistered (name : string) :
  name ∉ recognized → operations rt !! name = None.
Proof.
  intros Hname. apply eq_None_not_Some. by rewrite <- registered_recognized.
Qed.

Lemma execute_operation_registered name op kwargs now st :
  operations rt !! name = Some op →
  execute_operation rt (VStr name) kwargs now st =
    match call rt op kwargs now st with
    | (Returned result, st') => (Returned result, st')
    | (Raised e, st') =>
        (Returned (failed ("Operation execution failed: " +:+ exc_type e
                           +:+ " - " +:+ exc_str e)), st')
    end.
Proof. intros Hop. unfold execute_operation. simpl. by rewrite Hop. Qed.

Lemma call_body_handler tool params now st :
  names_a_parameter params = false →
  call_operation_handler rt (call_body tool params) now st =
    match execute_operation rt (VStr tool) params now st with
    | (Returned result, st') => (replied 200 result, st')
    | (Raised e, st') => (bad_request e, st')
    end.
Proof.
  intros Hfree. unfold call_operation_handler, call_body.
  rewrite lookup_insert_eq, lookup_insert_ne by done.
  rewrite lookup_singleton_eq. simpl. by rewrite Hfree.
Qed.


End Dispatch.
(** ** The endpoint and the adapter *)

Section Endpoint.

Variable rt : runtime.

Lemma clashing_keywords tool params now st :
  names_a_parameter params = true →
  call_operation_handler rt (call_body tool params) now st =
    (bad_request
       (type_error rt
          (multiple_values "DataAccessService.execute_operation" params)), st).
Proof.
  intros Hclash. unfold call_operation_handler, call_body.
  rewrite lookup_insert_eq, lookup_insert_ne by done.
  rewrite lookup_singleton_eq. simpl. by rewrite Hclash.
Qed.

(** Where C8 holds. For a name outside the dispatch table
    [execute_operation] returns the failure "Unknown database operation:
    <name>" whatever the keyword arguments and the store, which it leaves
    as it is. [POST /call] answers with this envelope and status 200 when
    the body has no [params] or when no key of [params] is [self] or
    [operation_name]; with such a key it answers 400. *)
Theorem unknown_operation (name : string) (now : string) (st : store) :
  name ∉ recognized →
  (∀ kwargs, execute_operation rt (VStr name) kwargs now st =
     (Returned (failed ("Unknown database operation: " +:+ name)), st)) ∧
  (∀ params, names_a_parameter params = false →
     call_operation_handler rt (call_body name params) now st =
       (replied 200 (failed ("Unknown database operation: " +:+ name)), st)) ∧
  call_operation_handler rt (Returned (VDict {[ "tool" := VStr name ]})) now st =
    (replied 200 (failed ("Unknown database operation: " +:+ name)), st) ∧
  (∀ params, names_a_parameter params = true →
     ∃ reply, call_operation_handler rt (call_body name params) now st = (reply, st) ∧
       status_code reply = 400).
Proof.
  intros Hname%(unregistered rt).
  assert (∀ kwargs, execute_operation rt (VStr name) kwargs now st =
     (Returned (failed ("Unknown database operation: " +:+ name)), st)) as Hexec.
  { intros kwargs. unfold execute_operation. simpl. by rewrite Hname. }
  split_and!.
  - done.
  - intros params Hfree. by rewrite call_body_handler, Hexec.
  - unfold call_operation_handler.
    rewrite lookup_singleton_eq, lookup_singleton_ne by done. simpl.
    change (names_a_parameter ∅) with false. by rewrite Hexec.
  - intros params Hclash. eexists. by rewrite clashing_keywords.
Qed.

(** Where C10 holds. When the keys of [params] do not fit the parameters
    of the handler of a recognized operation and none of them is [self] or
    [operation_name], [POST /call] answers with status 200 and the failure
    "Operation execution failed: TypeError - <message>", and the store is
    as before. When a key is [self] or [operation_name] it answers 400,
    the store again as before. *)
Theorem mismatched_keywords
    (name : string) (op : operation) (params : gmap string value)
    (now : string) (st : store) :
  operations rt !! name = Some op →
  accepts op params = false →
  (names_a_parameter params = false →
     call_operation_handler rt (call_body name params) now st =
       (replied 200
          (failed ("Operation execution failed: TypeError - "
                   +:+ fault_text rt (keywords_rejected (qualname op) params))), st)) ∧
  (names_a_parameter params = true →
     ∃ reply, call_operation_handler rt (call_body name params) now st = (reply, st) ∧
       status_code reply = 400).
Proof.
  intros Hop Hmismatch. split.
  - intros Hfree. rewrite call_body_handler by done.
    rewrite (execute_operation_registered _ _ _ _ _ _ Hop).
    unfold call. by rewrite Hmismatch.
  - intros Hclash. eexists. by rewrite clashing_keywords.
Qed.

(** C8 fails on the code at this request. The tool name is not in the
    dispatch table, yet [POST /call] does not answer 200 with "Unknown
    database operation: nonexistent_op": the key [operation_name] of
    [params] is refused by the call of [execute_operation] and the answer
    is 400, "Invalid request format: ...". *)
Theorem unknown_operation_clash (now : string) (st : store) :
  bool_decide ("nonexistent_op" ∈ recognized) = false ∧
  call_operation_handler rt
    (call_body "nonexistent_op" {[ "operation_name" := VStr "get_customer" ]}) now st =
    (replied 400
       (failed ("Invalid request format: "
                +:+ fault_text rt
                      (multiple_values "DataAccessService.execute_operation"
                         {[ "operation_name" := VStr "get_customer" ]}))), st).
Proof. split; [by vm_compute|]. by rewrite clashing_keywords. Qed.

(** C10 fails on the code at this request. The key [operation_name] is no
    parameter of the handler of [get_customer] and [customer_id] is
    missing, yet [POST /call] does not answer 200 with "Operation
    execution failed: TypeError - ...": the key is refused by the call of
    [execute_operation] and the answer is 400, "Invalid request format:
    ...". *)
Theorem mismatched_keywords_clash (now : string) (st : store) :
  operations rt !! "get_customer" = Some (get_customer_entry rt) ∧
  accepts (get_customer_entry rt) {[ "operation_name" := VInt 1 ]} = false ∧
  call_operation_handler rt
    (call_body "get_customer" {[ "operation_name" := VInt 1 ]}) now st =
    (replied 400
       (failed ("Invalid request format: "
                +:+ fault_text rt
                      (multiple_values "DataAccessService.execute_operation"
                         {[ "operation_name" := VInt 1 ]}))), st).
Proof. split_and!; [done|by vm_compute|]. by rewrite clashing_keywords. Qed.


End Endpoint.

(** ** The operations on the store *)

Section Operations.

Variable rt : runtime.

Lemma get_customer_runs customer_id now st :
  get_customer rt customer_id now st =
    (Returned (_fetch_customer_record customer_id st), st).
Proof.
  unfold get_customer.
  by rewrite (execute_operation_registered rt _ (get_customer_entry rt)).
Qed.

Lemma get_customer_history_runs customer_id now st :
  get_customer_history rt customer_id now st =
    (Returned (_retrieve_ticket_history customer_id st), st).
Proof.
  unfold get_customer_history.
  by rewrite (execute_operation_registered rt _ (get_customer_history_entry rt)).
Qed.

Lemma create_ticket_runs customer_id issue priority now st :
  create_ticket rt customer_id issue priority now st =
    match _register_new_ticket customer_id issue priority now st with
    | (Returned result, st') => (Returned result, st')
    | (Raised e, st') =>
        (Returned (failed ("Operation execution failed: " +:+ exc_type e
                           +:+ " - " +:+ exc_str e)), st')
    end.
Proof.
  unfold create_ticket.
  by rewrite (execute_operation_registered rt _ (create_ticket_entry rt)).
Qed.

Lemma update_customer_runs customer_id data now st :
  update_customer rt customer_id data now st =
    match _modify_customer_details rt customer_id data now st with
    | (Returned result, st') => (Returned result, st')
    | (Raised e, st') =>
        (Returned (failed ("Operation execution failed: " +:+ exc_type e
                           +:+ " - " +:+ exc_str e)), st')
    end.
Proof.
  unfold update_customer, update_arguments.
  by rewrite (execute_operation_registered rt _ (update_customer_entry rt)).
Qed.


Global Instance newest_first_total : Total newest_first.
Proof. intros r1 r2. unfold newest_first. destruct (total String.le
  (submission_timestamp r1.2) (submission_timestamp r2.2)); auto. Qed.

Global Instance newest_first_trans : Transitive newest_first.
Proof. intros r1 r2 r3 H12 H23. unfold newest_first in *. by etrans. Qed.



(** C4. With a priority whose lower-case form is none of low, medium and
    high, [create_ticket] returns a failure and the store, hence the set
    of tickets and their number, is the one before the call. *)
Theorem create_ticket_rejects_priority
    (customer_id : Z) (issue priority : string) (now : string) (st : store) :
  lower priority ∉ ["low"; "medium"; "high"] →
  create_ticket rt customer_id issue priority now st =
    (Returned (failed "Priority must be 'low', 'medium', or 'high'."), st).
Proof.
  intros Hpriority. rewrite create_ticket_runs. unfold _register_new_ticket.
  by rewrite bool_decide_eq_false_2.
Qed.


Lemma updates_empty (data : gmap string value) :
  size (filter (λ kv, kv.1 ∈ valid_fields) data) = 0%nat ↔
  dom data ∩ list_to_set valid_fields = (∅ : gset string).
Proof.
  rewrite map_size_empty_iff, map_empty_filter. split.
  - intros Hnone. apply set_eq. intros name.
    rewrite elem_of_intersection, elem_of_dom, elem_of_list_to_set.
    split; [|by intros ?%not_elem_of_empty].
    intros [[v Hv] Hname]. by destruct (Hnone name v Hv).
  - intros Hdisjoint name v Hv Hname. simpl in Hname.
    apply (not_elem_of_empty (C := gset string) name). rewrite <- Hdisjoint.
    rewrite elem_of_intersection, elem_of_dom, elem_of_list_to_set. eauto.
Qed.

(** C2. When no key of [data] is a whitelisted field, [update_customer]
    returns a failure whose error, "No valid fields provided for update.",
    begins with "No valid fields provided", and the store is the one
    before the call: no row is written, no timestamp moves. *)
Theorem update_customer_without_valid_field
    (customer_id : Z) (data : gmap string value) (now : string) (st : store) :
  dom data ∩ list_to_set valid_fields = (∅ : gset string) →
  ∃ message,
    update_customer rt customer_id data now st = (Returned (failed message), st) ∧
    message = "No valid fields provided for update." ∧
    String.prefix "No valid fields provided" message = true.
Proof.
  intros Hnone%updates_empty. eexists. split; [|done].
  rewrite update_customer_runs. unfold _modify_customer_details. cbv zeta.
  by rewrite bool_decide_eq_true_2.
Qed.

Lemma assigned_column (updates : gmap string string) now row name :
  name ∈ valid_fields →
  column name (assign updates now row) =
    match updates !! name with
    | Some text => Some text
    | None => column name row
    end.
Proof.
  unfold valid_fields. rewrite !elem_of_cons, elem_of_nil.
  intros [->|[->|[->|[->|[]]]]]; unfold column; simpl;
    by destruct (updates !! _).
Qed.

Lemma update_customer_unknown_account
    (customer_id : Z) (data : gmap string value) (now : string) (st : store) :
  customer_accounts st !! customer_id = None →
  (∀ name v, name ∈ valid_fields → data !! name = Some v → is_Some (as_text v)) →
  ∃ result,
    update_customer rt customer_id data now st = (Returned result, st) ∧
    success result = false.
Proof.
  intros Hrow Htyped. rewrite update_customer_runs.
  unfold _modify_customer_details. cbv zeta.
  set (updates := filter _ data).
  destruct (bool_decide (size updates = 0%nat)); [eexists; by split|].
  rewrite bool_decide_eq_true_2; last first.
  { intros name v [Hv Hname]%map_lookup_filter_Some. by eapply Htyped. }
  cbn [customer_accounts with_accounts].
  rewrite lookup_alter_eq, Hrow. simpl.
  rewrite alter_alt, Hrow.
  replace (with_accounts (customer_accounts st) st) with st by by destruct st.
  eexists. by split.
Qed.



End Operations.

(** ** The properties on the seeded store *)


Lemma unknown_operation_witness :
  ("nonexistent_op" ∉ recognized) ∧
  call_operation_handler sample_runtime (call_body "nonexistent_op" ∅)
    later_time seeded =
    (replied 200 (failed "Unknown database operation: nonexistent_op"), seeded).
Proof.
  assert ("nonexistent_op" ∉ recognized) as Hname.
  { apply (bool_decide_unpack _). vm_compute. exact I. }
  split; [exact Hname|].
  destruct (unknown_operation sample_runtime "nonexistent_op" later_time seeded
              Hname) as (_ & Hpost & _).
  apply Hpost. reflexivity.
Defined.

Lemma mismatched_keywords_witness :
  operations sample_runtime !! "get_customer" = Some (get_customer_entry sample_runtime) ∧
  accepts (get_customer_entry sample_runtime) {[ "id" := VInt 1 ]} = false ∧
  ∃ message,
    call_operation_handler sample_runtime
      (call_body "get_customer" {[ "id" := VInt 1 ]}) later_time seeded =
      (replied 200 (failed ("Operation execution failed: TypeError - " +:+ message)),
       seeded).
Proof.
  assert (operations sample_runtime !! "get_customer"
          = Some (get_customer_entry sample_runtime)) as Hop by reflexivity.
  assert (accepts (get_customer_entry sample_runtime) {[ "id" := VInt 1 ]} = false)
    as Hkeys by (vm_compute; reflexivity).
  split; [exact Hop|]. split; [exact Hkeys|].
  destruct (mismatched_keywords sample_runtime "get_customer" _ _ later_time seeded
              Hop Hkeys) as [Hpost _].
  eexists. apply Hpost. vm_compute. reflexivity.
Defined.





Lemma create_ticket_rejects_priority_witness :
  (lower "Urgent" ∉ ["low"; "medium"; "high"]) ∧
  create_ticket sample_runtime 1 "Billing issue" "Urgent" later_time seeded =
    (Returned (failed "Priority must be 'low', 'medium', or 'high'."), seeded).
Proof.
  assert (lower "Urgent" ∉ ["low"; "medium"; "high"]) as Hpriority.
  { apply (bool_decide_unpack _). vm_compute. exact I. }
  split; [exact Hpriority|].
  exact (create_ticket_rejects_priority sample_runtime 1 "Billing issue" "Urgent"
           later_time seeded Hpriority).
Defined.

Lemma update_customer_without_valid_field_witness :
  dom ({[ "identifier" := VInt 7 ]} : gmap string value) ∩ list_to_set valid_fields
    = (∅ : gset string) ∧
  update_customer sample_runtime 1 {[ "identifier" := VInt 7 ]} later_time seeded =
    (Returned (failed "No valid fields provided for update."), seeded).
Proof.
  assert (dom ({[ "identifier" := VInt 7 ]} : gmap string value)
            ∩ list_to_set valid_fields = (∅ : gset string)) as Hnone.
  { apply (bool_decide_unpack _). vm_compute. exact I. }
  split; [exact Hnone|].
  destruct (update_customer_without_valid_field sample_runtime 1 _ later_time seeded
              Hnone) as (message & Hrun & -> & _).
  exact Hrun.
Defined.



(** The scenario of the specification: the e-mail address of account 1 is
    changed, a ticket is opened for it, and the history of the account
    then starts with that ticket. *)
Example end_to_end_scenario :
  let st1 :=
    (update_customer sample_runtime 1 {[ "contact_email" := VStr "new@email.com" ]}
       later_time seeded).2 in
  let st2 := (create_ticket sample_runtime 1 "Billing issue" "high" later_time st1).2 in
  column "contact_email" <$> customer_accounts st1 !! 1 = Some (Some "new@email.com") ∧
  ∃ rows,
    (get_customer_history sample_runtime 1 later_time st2).1 =
      Returned (listed (ticket_records
        ((8, {| account_id := 1; description := "Billing issue"; status := "open";
                priority_level := "high"; submission_timestamp := later_time |})
         :: rows)) 3).
Proof. split; [|eexists]; vm_compute; reflexivity. Qed.

(** * Further properties of the service *)

(** ** Listing accounts *)

Section Listing.

Variable rt : runtime.

Lemma list_customers_runs status limit now st :
  list_customers rt status limit now st =
    (Returned (_search_customer_records status (default 100 limit) st), st).
Proof.
  unfold list_customers.
  rewrite (execute_operation_registered rt _ (list_customers_entry rt)) by done.
  by destruct status as [wanted|], limit as [bound|].
Qed.


End Listing.

(** ** Priorities *)

Lemma lower_ascii_idempotent (c : ascii) : lower_ascii (lower_ascii c) = lower_ascii c.
Proof. by destruct c as [[] [] [] [] [] [] [] []]. Qed.

Lemma lower_idempotent (s : string) : lower (lower s) = lower s.
Proof.
  induction s as [|c s IH]; [done|].
  simpl. by rewrite lower_ascii_idempotent, IH.
Qed.

Section Priorities.

Variable rt : runtime.

(** X2. The priority of [create_ticket] is read without regard to case:
    a call with a priority and the call with its lower-case form give the
    same envelope and the same store. A call without [priority] is the
    call with "medium". *)
Theorem create_ticket_priority_normalized
    (customer_id : Z) (issue priority : string) (now : string) (st : store) :
  create_ticket rt customer_id issue priority now st =
    create_ticket rt customer_id issue (lower priority) now st ∧
  create_ticket_default rt customer_id issue now st =
    create_ticket rt customer_id issue "medium" now st.
Proof.
  split.
  - rewrite !create_ticket_runs. unfold _register_new_ticket.
    by rewrite lower_idempotent.
  - unfold create_ticket_default, create_ticket.
    by rewrite !(execute_operation_registered rt _ (create_ticket_entry rt)).
Qed.

End Priorities.

(** ** Requests of any shape *)

Section Requests.

Variable rt : runtime.



(** X4. A request whose [tool] is absent or is not a string runs no
    handler: the answer is a failure and the store is untouched. With
    [tool] absent and no [params], the answer has status 200 and names the
    operation None. *)
Theorem call_without_tool_name
    (request_body : gmap string value) (now : string) (st : store) :
  (∀ name, request_body !! "tool" ≠ Some (VStr name)) →
  (∃ reply,
     call_operation_handler rt (Returned (VDict request_body)) now st = (reply, st) ∧
     success (content reply) = false) ∧
  (request_body !! "tool" = None → request_body !! "params" = None →
   call_operation_handler rt (Returned (VDict request_body)) now st =
     (replied 200 (failed "Unknown database operation: None"), st)).
Proof.
  intros Htool. split.
  - unfold call_operation_handler.
    destruct (default (VDict ∅) (request_body !! "params"))
      as [| | | | | |op_params]; try by eexists.
    destruct (names_a_parameter op_params); [by eexists|].
    unfold execute_operation.
    destruct (request_body !! "tool") as [[|[]| | |name| |]|];
      simpl; try by eexists.
    by destruct (Htool name).
  - intros Hnone Hparams. unfold call_operation_handler.
    by rewrite Hnone, Hparams.
Qed.

End Requests.

(** ** Tables, continued *)



Lemma next_ticket_id_fresh (st : store) :
  support_tickets st !! next_ticket_id st = None.
Proof. apply beyond_largest_rowid. unfold next_ticket_id. lia. Qed.


Global Instance by_rowid_total {A} : Total (@by_rowid A).
Proof. intros r1 r2. unfold by_rowid. lia. Qed.

Global Instance by_rowid_trans {A} : Transitive (@by_rowid A).
Proof. intros r1 r2 r3. unfold by_rowid. lia. Qed.



(** ** How the operations compose *)

Section Composition.

Variable rt : runtime.


Lemma create_ticket_valid customer_id issue priority now st :
  lower priority ∈ ["low"; "medium"; "high"] →
  create_ticket rt customer_id issue priority now st =
    (Returned (found (ticket_record (next_ticket_id st)
       {| account_id := customer_id; description := issue; status := "open";
          priority_level := lower priority; submission_timestamp := now |})),
     {| customer_accounts := customer_accounts st;
        support_tickets :=
          <[next_ticket_id st :=
             {| account_id := customer_id; description := issue; status := "open";
                priority_level := lower priority; submission_timestamp := now |}]>
            (support_tickets st);
        ticket_sequence := next_ticket_id st |}).
Proof.
  intros Hpriority. rewrite create_ticket_runs. unfold _register_new_ticket.
  cbv zeta. rewrite bool_decide_eq_true_2 by done.
  fold (next_ticket_id st). cbn [support_tickets].
  by rewrite lookup_insert_eq.
Qed.

Lemma create_ticket_invalid customer_id issue priority now st :
  lower priority ∉ ["low"; "medium"; "high"] →
  create_ticket rt customer_id issue priority now st =
    (Returned (failed "Priority must be 'low', 'medium', or 'high'."), st).
Proof.
  intros Hpriority. rewrite create_ticket_runs. unfold _register_new_ticket.
  by rewrite bool_decide_eq_false_2.
Qed.






End Composition.

(** ** Updates *)

Section Updates.

Variable rt : runtime.

Lemma update_customer_typed customer_id data now st :
  text_fields data →
  update_customer rt customer_id data now st =
    let updates := filter (λ kv, kv.1 ∈ valid_fields) data in
    if bool_decide (size updates = 0%nat) then
      (Returned (failed "No valid fields provided for update."), st)
    else
      match customer_accounts st !! customer_id with
      | Some row =>
          (Returned (found (account_record customer_id
                              (assign (omap as_text updates) now row))),
           with_accounts
             (<[customer_id := assign (omap as_text updates) now row]>
                (customer_accounts st)) st)
      | None =>
          (Returned (failed ("Account " +:+ pretty customer_id
                             +:+ " not found or update failed.")), st)
      end.
Proof.
  intros Htyped. rewrite update_customer_runs.
  unfold _modify_customer_details. cbv zeta.
  set (updates := filter _ data).
  destruct (bool_decide (size updates = 0%nat)); [done|].
  rewrite bool_decide_eq_true_2; last first.
  { intros name v [Hv Hname]%map_lookup_filter_Some. by eapply Htyped. }
  cbn [customer_accounts with_accounts].
  rewrite lookup_alter_eq, alter_alt.
  destruct (customer_accounts st !! customer_id) as [row|]; simpl; [done|].
  by destruct st.
Qed.

(** X9. Take a [data] whose values for the whitelisted fields are
    strings. [update_customer] writes all or nothing: when it succeeds,
    [get_customer] on the resulting store returns the very envelope the
    update returned; when it fails, the store is the one before. *)
Theorem update_then_get
    (customer_id : Z) (data : gmap string value) (now now' : string) (st : store) :
  text_fields data →
  ∃ result st',
    update_customer rt customer_id data now st = (Returned result, st') ∧
    (success result = true →
     get_customer rt customer_id now' st' = (Returned result, st')) ∧
    (success result = false → st' = st).
Proof.
  intros Htyped. rewrite (update_customer_typed _ _ _ _ Htyped). cbv zeta.
  destruct (bool_decide _); [by eexists _, _|].
  destruct (customer_accounts st !! customer_id) as [row|]; [|by eexists _, _].
  eexists _, _. split; [done|]. split; [|done]. intros _.
  rewrite get_customer_runs. unfold _fetch_customer_record.
  cbn [customer_accounts with_accounts]. by rewrite lookup_insert_eq.
Qed.

(** X10. Take a [data] whose values for the whitelisted fields are
    strings. When [update_customer] has succeeded, the same update made
    again succeeds too and changes nothing of the row but
    [last_modified_timestamp], which becomes the new clock reading. *)
Theorem update_replayed
    (customer_id : Z) (data : gmap string value) (now1 now2 : string)
    (st st1 : store) (row1 : account) :
  text_fields data →
  update_customer rt customer_id data now1 st =
    (Returned (found (account_record customer_id row1)), st1) →
  ∃ row2 st2,
    update_customer rt customer_id data now2 st1 =
      (Returned (found (account_record customer_id row2)), st2) ∧
    (∀ name, name ∈ valid_fields → column name row2 = column name row1) ∧
    creation_timestamp row2 = creation_timestamp row1 ∧
    last_modified_timestamp row2 = now2.
Proof.
  intros Htyped. rewrite !(update_customer_typed _ _ _ _ Htyped). cbv zeta.
  destruct (bool_decide _); [done|].
  destruct (customer_accounts st !! customer_id) as [row|]; [|done].
  intros [= <- <-]. cbn [customer_accounts with_accounts].
  rewrite lookup_insert_eq. eexists _, _. split_and!; [done| |done..].
  intros name Hname. rewrite !assigned_column by done.
  by destruct (omap as_text _ !! name).
Qed.

End Updates.

(** ** Sequences of tool calls *)

Lemma evolves_refl (st : store) : evolves st st.
Proof. split_and!; [done| |done|lia]. intros ???; congruence. Qed.

Lemma evolves_trans (st0 st1 st2 : store) :
  evolves st0 st1 → evolves st1 st2 → evolves st0 st2.
Proof.
  intros (Hdom1 & Hstamp1 & Htickets1 & Hcount1)
         (Hdom2 & Hstamp2 & Htickets2 & Hcount2).
  split_and!; [congruence| |by etrans|lia].
  intros identifier row0 row2 Hrow0 Hrow2.
  assert (is_Some (customer_accounts st1 !! identifier)) as [row1 Hrow1].
  { apply elem_of_dom. rewrite Hdom1. apply elem_of_dom. eauto. }
  rewrite (Hstamp2 _ _ _ Hrow1 Hrow2). by eapply Hstamp1.
Qed.

Lemma foldr_max_le (keys : list Z) (bound : Z) :
  0 ≤ bound → Forall (λ k, k ≤ bound) keys → foldr Z.max 0 keys ≤ bound.
Proof. intros Hbound. induction 1; simpl; lia. Qed.

Lemma largest_rowid_le {A} (table : gmap Z A) (bound : Z) :
  0 ≤ bound → (∀ k, is_Some (table !! k) → k ≤ bound) →
  largest_rowid table ≤ bound.
Proof.
  intros Hbound Hkeys. apply foldr_max_le; [done|].
  apply Forall_forall. intros k [[k' x] [-> Hin]]%list_elem_of_fmap.
  apply elem_of_map_to_list in Hin. apply Hkeys. simpl. eauto.
Qed.

Lemma numbered_next_ticket_id (st : store) :
  numbered st → next_ticket_id st = Z.max 0 (ticket_sequence st) + 1.
Proof.
  intros [Hids _]. unfold next_ticket_id.
  assert (largest_rowid (support_tickets st) ≤ Z.max 0 (ticket_sequence st)).
  { apply largest_rowid_le; [lia|]. intros k Hk%Hids. lia. }
  assert (0 ≤ largest_rowid (support_tickets st)).
  { unfold largest_rowid. induction (map_to_list _).*1; simpl; lia. }
  lia.
Qed.

Lemma numbered_seeded (current_utc : string) :
  numbered (initialize_database_schema current_utc).
Proof.
  split.
  - intros ticket_id. cbn [support_tickets initialize_database_schema ticket_sequence].
    rewrite <- elem_of_dom, dom_list_to_map_L, elem_of_list_to_set. cbn.
    rewrite !elem_of_cons, elem_of_nil. lia.
  - intros ticket_id row Hrow%elem_of_list_to_map_2.
    cbn in Hrow. rewrite !elem_of_cons, elem_of_nil in Hrow.
    destruct Hrow as [Hrow|[Hrow|[Hrow|[Hrow|[Hrow|[Hrow|[Hrow|[]]]]]]]];
      injection Hrow as -> ->; cbn; rewrite !elem_of_cons; tauto.
Qed.

Section Sessions.

Variable rt : runtime.

Lemma execute_mcp_operation_up operation_name parameters now w result st' :
  endpoint_up w = true →
  execute_operation rt (VStr operation_name) parameters now (service w) =
    (Returned result, st') →
  names_a_parameter parameters = false →
  _execute_mcp_operation rt operation_name parameters now w =
    (render rt result,
     {| service := st'; endpoint_up := true;
        posted := posted w ++ [(operation_name, parameters)] |}).
Proof.
  intros Hup Hrun Hfree. unfold _execute_mcp_operation.
  by rewrite Hup, call_body_handler, Hrun.
Qed.

Lemma execute_mcp_operation_down operation_name parameters now w :
  endpoint_up w = false →
  _execute_mcp_operation rt operation_name parameters now w =
    ("Service Execution Failure: " +:+ transport_text rt None,
     {| service := service w; endpoint_up := false;
        posted := posted w ++ [(operation_name, parameters)] |}).
Proof. intros Hdown. unfold _execute_mcp_operation. by rewrite Hdown. Qed.

Lemma invoke_effect (c : tool_call) (now : string) (w : world) :
  typed_call rt c →
  service (invoke rt c now w).2 = service w ∨
  (∃ customer_id row updates,
     customer_accounts (service w) !! customer_id = Some row ∧
     service (invoke rt c now w).2 =
       with_accounts
         (<[customer_id := assign updates now row]> (customer_accounts (service w)))
         (service w)) ∨
  (∃ row,
     priority_level row ∈ ["low"; "medium"; "high"] ∧
     service (invoke rt c now w).2 =
       {| customer_accounts := customer_accounts (service w);
          support_tickets :=
            <[next_ticket_id (service w) := row]> (support_tickets (service w));
          ticket_sequence := next_ticket_id (service w) |}).
Proof.
  intros Htyped. destruct (endpoint_up w) eqn:Hup; last first.
  { left. destruct c; simpl; unfold fetch_customer_data, search_customer_accounts,
      modify_customer_record, register_support_issue, retrieve_customer_history;
      try destruct (json_loads rt _); by rewrite ?execute_mcp_operation_down. }
  destruct c as [customer_id|account_status result_limit|customer_id update_payload
                |customer_id query_description urgency_level|customer_id]; simpl.
  - left. unfold fetch_customer_data.
    by rewrite (execute_mcp_operation_up _ _ _ _ _ _ Hup
                  (get_customer_runs rt _ _ _) eq_refl).
  - left. unfold search_customer_accounts. cbv zeta.
    destruct account_status as [wanted|]; [case_bool_decide|].
    + by rewrite (execute_mcp_operation_up _ _ _ _ _ _ Hup
                  (list_customers_runs rt None (Some result_limit) _ _) eq_refl).
    + by rewrite (execute_mcp_operation_up _ _ _ _ _ _ Hup
                  (list_customers_runs rt (Some wanted) (Some result_limit) _ _) eq_refl).
    + by rewrite (execute_mcp_operation_up _ _ _ _ _ _ Hup
                  (list_customers_runs rt None (Some result_limit) _ _) eq_refl).
  - unfold modify_customer_record. simpl in Htyped.
    destruct (json_loads rt update_payload) as [[| | | | | |data]|]; try done;
      [|by left].
    pose proof (update_customer_typed rt customer_id data now (service w) Htyped)
      as Hrun. cbv zeta in Hrun. unfold update_customer, update_arguments in Hrun.
    destruct (bool_decide _).
    { left. by rewrite (execute_mcp_operation_up _ _ _ _ _ _ Hup
                  Hrun eq_refl). }
    destruct (customer_accounts (service w) !! customer_id) as [row|] eqn:Hrow.
    + right. left. eexists _, row, _. split; [done|].
      by rewrite (execute_mcp_operation_up _ _ _ _ _ _ Hup
                  Hrun eq_refl).
    + left. by rewrite (execute_mcp_operation_up _ _ _ _ _ _ Hup
                  Hrun eq_refl).
  - unfold register_support_issue.
    destruct (decide (lower urgency_level ∈ ["low"; "medium"; "high"]))
      as [Hpriority|Hpriority].
    + right. right. eexists. split; [|
        by rewrite (execute_mcp_operation_up _ _ _ _ _ _ Hup
                  (create_ticket_valid rt _ _ _ _ _ Hpriority) eq_refl)].
      done.
    + left. by rewrite (execute_mcp_operation_up _ _ _ _ _ _ Hup
                  (create_ticket_invalid rt _ _ _ _ _ Hpriority) eq_refl).
  - left. unfold retrieve_customer_history.
    by rewrite (execute_mcp_operation_up _ _ _ _ _ _ Hup
                  (get_customer_history_runs rt _ _ _) eq_refl).
Qed.

Lemma evolves_invoke (c : tool_call) (now : string) (w : world) :
  typed_call rt c → evolves (service w) (service (invoke rt c now w).2).
Proof.
  intros [->|[(customer_id & row & updates & Hrow & ->)|(row & _ & ->)]]%
    (invoke_effect c now w).
  - apply evolves_refl.
  - split_and!; [|..|done|done].
    + cbn. apply dom_insert_lookup_L. eauto.
    + cbn. intros identifier row0 row'.
      destruct (decide (customer_id = identifier)) as [->|Hne].
      * rewrite lookup_insert_eq. intros ? [= <-]. simpl. congruence.
      * rewrite lookup_insert_ne by done. congruence.
  - split_and!; cbn; [done|intros ???; congruence| |unfold next_ticket_id; lia].
    apply insert_subseteq, next_ticket_id_fresh.
Qed.

Lemma numbered_invoke (c : tool_call) (now : string) (w : world) :
  typed_call rt c → numbered (service w) → numbered (service (invoke rt c now w).2).
Proof.
  intros [->|[(customer_id & row & updates & Hrow & ->)|(row & Hpriority & ->)]]%
    (invoke_effect c now w) Hnumbered; [done|done|].
  pose proof (numbered_next_ticket_id _ Hnumbered) as Hnext.
  destruct Hnumbered as [Hids Hpriorities]. split; cbn.
  - intros ticket_id. rewrite lookup_insert_is_Some, Hids. lia.
  - intros ticket_id row'.
    destruct (decide (next_ticket_id (service w) = ticket_id)) as [->|Hne].
    + rewrite lookup_insert_eq. by intros [= <-].
    + rewrite lookup_insert_ne by done. apply Hpriorities.
Qed.

Lemma session_cons c now rest w :
  (session rt ((c, now) :: rest) w).2 = (session rt rest (invoke rt c now w).2).2.
Proof.
  cbn [session]. destruct (invoke rt c now w) as [answer w'].
  cbn [snd]. by destruct (session rt rest w').
Qed.

(** X11. Whatever typed calls the agents make, and in whatever order, the
    service keeps the accounts it had, under the same identifiers and with
    the same creation stamps, and every ticket it had, unchanged; its
    ticket counter never goes back. No tool creates or deletes an account,
    or deletes or rewrites a ticket. *)
Theorem session_evolves (calls : list (tool_call * string)) (w : world) :
  Forall (λ c, typed_call rt c.1) calls →
  evolves (service w) (service (session rt calls w).2).
Proof.
  intros Htyped. revert w.
  induction Htyped as [|[c now] rest Hc _ IH]; intros w.
  - apply evolves_refl.
  - rewrite session_cons. eapply evolves_trans; [by apply evolves_invoke|apply IH].
Qed.

(** X12. Whatever typed calls the agents make from a store whose tickets
    are numbered from 1 to the counter without a gap, each with one of the
    three priorities, the store they reach is such a store again. A
    freshly seeded store is one ([numbered_seeded]). *)
Theorem session_numbered (calls : list (tool_call * string)) (w : world) :
  Forall (λ c, typed_call rt c.1) calls →
  numbered (service w) →
  numbered (service (session rt calls w).2).
Proof.
  intros Htyped. revert w.
  induction Htyped as [|[c now] rest Hc _ IH]; intros w Hnumbered; [done|].
  rewrite session_cons. by apply IH, numbered_invoke.
Qed.

End Sessions.

(** ** The tools, seen from the agent *)

Section Tools.

Variable rt : runtime.




(** X15. The catalogue of [GET /tools] and the dispatch table agree: each
    entry of the catalogue names a registered operation whose keyword
    parameters are exactly the advertised ones, so a call that gives just
    those is accepted; and each registered operation has an entry. *)
Theorem tool_list_matches_operations :
  (∀ entry, entry ∈ tool_list →
     ∃ fields name parameters op,
       entry = VDict fields ∧
       fields !! "name" = Some (VStr name) ∧
       fields !! "parameters" = Some (VDict parameters) ∧
       operations rt !! name = Some op ∧
       dom parameters = list_to_set (required op ++ optional op) ∧
       accepts op parameters = true) ∧
  (∀ name, name ∈ recognized →
     ∃ fields, VDict fields ∈ tool_list ∧ fields !! "name" = Some (VStr name)).
Proof.
  split.
  - intros entry Hentry. unfold tool_list in Hentry.
    rewrite !elem_of_cons, elem_of_nil in Hentry.
    destruct Hentry as [->|[->|[->|[->|[->|[]]]]]];
      eexists _, _, _, _; (split_and!; [done|done|done|done|compute_done|done]).
  - intros name Hname. unfold recognized in Hname.
    rewrite !elem_of_cons, elem_of_nil in Hname. unfold tool_list.
    destruct Hname as [->|[->|[->|[->|[->|[]]]]]];
      first
        [ solve [eexists; split; [eapply (list_elem_of_lookup_2 _ 0%nat); reflexivity|done]]
        | solve [eexists; split; [eapply (list_elem_of_lookup_2 _ 1%nat); reflexivity|done]]
        | solve [eexists; split; [eapply (list_elem_of_lookup_2 _ 2%nat); reflexivity|done]]
        | solve [eexists; split; [eapply (list_elem_of_lookup_2 _ 3%nat); reflexivity|done]]
        | solve [eexists; split; [eapply (list_elem_of_lookup_2 _ 4%nat); reflexivity|done]] ].
Qed.

End Tools.

(** ** The further properties on the seeded store *)

Lemma call_without_tool_name_witness :
  (∀ name, (∅ : gmap string value) !! "tool" ≠ Some (VStr name)) ∧
  call_operation_handler sample_runtime (Returned (VDict ∅)) later_time seeded =
    (replied 200 (failed "Unknown database operation: None"), seeded).
Proof.
  assert (∀ name, (∅ : gmap string value) !! "tool" ≠ Some (VStr name)) as Htool.
  { intros name Hname. rewrite lookup_empty in Hname. discriminate Hname. }
  split; [exact Htool|].
  destruct (call_without_tool_name sample_runtime ∅ later_time seeded Htool)
    as [_ Hnone].
  apply Hnone; apply lookup_empty.
Defined.






Lemma new_email_text_fields :
  text_fields {[ "contact_email" := VStr "new@email.com"; "identifier" := VInt 7 ]}.
Proof.
  intros name v Hname Hv. unfold valid_fields in Hname.
  rewrite !elem_of_cons, elem_of_nil in Hname.
  destruct Hname as [->|[->|[->|[->|[]]]]]; vm_compute in Hv;
    inversion Hv; subst v; simpl; eauto.
Qed.

Lemma update_then_get_witness :
  text_fields {[ "contact_email" := VStr "new@email.com"; "identifier" := VInt 7 ]} ∧
  ∃ result st',
    update_customer sample_runtime 1
      {[ "contact_email" := VStr "new@email.com"; "identifier" := VInt 7 ]}
      later_time seeded = (Returned result, st') ∧
    (success result = true →
     get_customer sample_runtime 1 later_time st' = (Returned result, st')).
Proof.
  split; [exact new_email_text_fields|].
  destruct (update_then_get sample_runtime 1 _ later_time later_time seeded
              new_email_text_fields) as (result & st' & Hrun & Hget & _).
  exists result, st'. split; [exact Hrun|exact Hget].
Defined.

Lemma update_replayed_witness :
  ∃ row1 st1 row2 st2,
    update_customer sample_runtime 1
      {[ "contact_email" := VStr "new@email.com"; "identifier" := VInt 7 ]}
      seeding_time seeded = (Returned (found (account_record 1 row1)), st1) ∧
    update_customer sample_runtime 1
      {[ "contact_email" := VStr "new@email.com"; "identifier" := VInt 7 ]}
      later_time st1 = (Returned (found (account_record 1 row2)), st2) ∧
    last_modified_timestamp row2 = later_time.
Proof.
  set (data := {[ "contact_email" := VStr "new@email.com"; "identifier" := VInt 7 ]}
         : gmap string value).
  set (row1 := assign {[ "contact_email" := "new@email.com" ]} seeding_time
                 (seed_account "Alice Premium" "alice@example.com" "111-111-1111"
                    "active" seeding_time)).
  set (st1 := (update_customer sample_runtime 1 data seeding_time seeded).2).
  assert (update_customer sample_runtime 1 data seeding_time seeded =
            (Returned (found (account_record 1 row1)), st1)) as Hfirst
    by (vm_compute; reflexivity).
  destruct (update_replayed sample_runtime 1 data seeding_time later_time seeded st1
              row1 new_email_text_fields Hfirst)
    as (row2 & st2 & Hsecond & _ & _ & Hstamp).
  exists row1, st1, row2, st2. split; [exact Hfirst|]. split; [exact Hsecond|exact Hstamp].
Defined.

Lemma sample_calls_typed :
  Forall (λ c : tool_call * string, typed_call sample_runtime c.1)
    [(register_support_issue_call 1 "Billing issue" "high", later_time);
     (modify_customer_record_call 1 "{}", later_time);
     (fetch_customer_data_call 2, later_time)].
Proof.
  repeat constructor. unfold typed_call. simpl.
  change (json_loads sample_runtime "{}") with (Some (VDict (∅ : gmap string value))).
  intros name v _ Hv. rewrite lookup_empty in Hv. discriminate Hv.
Qed.

Lemma session_evolves_witness :
  Forall (λ c : tool_call * string, typed_call sample_runtime c.1)
    [(register_support_issue_call 1 "Billing issue" "high", later_time);
     (modify_customer_record_call 1 "{}", later_time);
     (fetch_customer_data_call 2, later_time)] ∧
  evolves seeded
    (service
       (session sample_runtime
          [(register_support_issue_call 1 "Billing issue" "high", later_time);
           (modify_customer_record_call 1 "{}", later_time);
           (fetch_customer_data_call 2, later_time)]
          {| service := seeded; endpoint_up := true; posted := [] |}).2).
Proof.
  split; [exact sample_calls_typed|].
  exact (session_evolves sample_runtime _
           {| service := seeded; endpoint_up := true; posted := [] |}
           sample_calls_typed).
Defined.

Lemma session_numbered_witness :
  numbered seeded ∧
  numbered
    (service
       (session sample_runtime
          [(register_support_issue_call 1 "Billing issue" "high", later_time);
           (modify_customer_record_call 1 "{}", later_time);
           (fetch_customer_data_call 2, later_time)]
          {| service := seeded; endpoint_up := true; posted := [] |}).2).
Proof.
  split; [exact (numbered_seeded seeding_time)|].
  exact (session_numbered sample_runtime _
           {| service := seeded; endpoint_up := true; posted := [] |}
           sample_calls_typed (numbered_seeded seeding_time)).
Defined.


(** ** Which requests are answered with status 200 *)

Section Accepted.

Variable rt : runtime.


End Accepted.
